(** * Airfoil CST conversion: a shallow embedding of [af_opt/components/airfoil.py]

    The Python module converts between sampled airfoil surfaces and
    Class-Shape-Transformation (CST) coefficients.  It is written against
    numpy arrays of binary64 numbers, the external [cst] package
    ([cst], [fit]) and the helper [cosspace] of [af_opt/util.py].

    The embedding is generic in the scalar type: the same definitions are
    read over the reals (exact arithmetic) and over binary64 (what numpy
    runs).  The collaborators that the source imports are Section
    variables. *)

From Stdlib Require Import ZArith List Reals Lra Lia.
From Stdlib Require Import Floats.PrimFloat.
From stdpp Require Import base option strings gmap list.

Set Default Proof Using "Type".
Set Warnings "-inexact-float".

(** ** Exceptions and the result monad *)

(** The failures of the conversion layer.  [ShapeMismatch] is numpy's
    broadcast [ValueError]; [KeyError] and [IndexError] are Python's. *)
Inductive exn : Type :=
  | ShapeMismatch
  | InvalidArgument
  | NumericalFitFailure
  | KeyError (key : string)
  | IndexError.

Inductive result (A : Type) : Type :=
  | Ok (a : A)
  | Err (e : exn).

Arguments Ok {A} a.
Arguments Err {A} e.

#[global] Instance result_ret : MRet result := fun A a => Ok a.

#[global] Instance result_bind : MBind result := fun A B k r =>
  match r with
  | Ok a => k a
  | Err e => Err e
  end.

(** ** Scalars *)

(** The arithmetic the module performs on array elements. *)
Class Scalar (F : Type) : Type := {
  ofZ : Z -> F;
  add : F -> F -> F;
  sub : F -> F -> F;
  mul : F -> F -> F;
  div : F -> F -> F
}.

(** ** One-dimensional numpy arrays *)

Section Ndarray.
Context {F : Type} `{Scalar F}.

(** [a op b] on two 1-d arrays: equal shapes combine pointwise, a
    length-one array is stretched, anything else raises. *)
Definition broadcast (op : F -> F -> F) (a b : list F) : result (list F) :=
  if decide (length a = length b) then Ok (zip_with op a b)
  else match a, b with
       | [u], _ => Ok (op u <$> b)
       | _, [v] => Ok ((fun u => op u v) <$> a)
       | _, _ => Err ShapeMismatch
       end.

Definition arr_add : list F -> list F -> result (list F) := broadcast add.
Definition arr_sub : list F -> list F -> result (list F) := broadcast sub.

(** [a / k] for a Python number [k]. *)
Definition arr_div_scalar (a : list F) (k : F) : list F :=
  (fun u => div u k) <$> a.

(** [a[i]] for a non-negative literal index. *)
Definition arr_index (a : list F) (i : nat) : result F :=
  match a !! i with
  | Some v => Ok v
  | None => Err IndexError
  end.
End Ndarray.

(** ** The module [af_opt.components.airfoil] *)

(** The component, as far as the module reads it: the options declared by
    [AirfoilComponent.initialize] (all [types=int]). *)
Record AirfoilComponent : Type := {
  n_ca : Z;
  n_th : Z;
  n_coords : Z
}.

(** Defaults of [initialize]. *)
Definition initialize : AirfoilComponent :=
  {| n_ca := 6; n_th := 6; n_coords := 100 |}.

Section Airfoil.
Context {F : Type} `{Scalar F}.

(** [af_opt.util.cosspace(st, ed, n)]. *)
Variable cosspace : F -> F -> Z -> result (list F).

(** [cst.cst(x, a, delta=..., n1=...)]; [None] is a keyword the call
    site leaves to the library default. *)
Variable cst : list F -> list F -> option (F * F) -> option F -> result (list F).

(** [cst.fit(x, y, n, delta=..., n1=...)], returning the coefficients
    and the boundary-value pair. *)
Variable fit :
  list F -> list F -> Z -> option (F * F) -> option F -> result (list F * (F * F)).

(** [np.round] on one element, to a number of decimals. *)
Variable round_scalar : Z -> F -> F.

Definition np_round (a : list F) (decimals : Z) : list F :=
  round_scalar decimals <$> a.

Definition coords2cst (x y_u y_l : list F) (n_ca n_th : Z)
  : result (list F * list F * F) :=
  s ← arr_add y_u y_l;
  let y_c := arr_div_scalar s (ofZ 2) in
  t ← arr_sub y_u y_l;
  '(a_ca, _) ← fit x y_c n_ca (Some (ofZ 0, ofZ 0)) (Some (ofZ 1));
  '(a_th, t_te) ← fit x t n_th None None;
  mret (a_ca, a_th, snd t_te).

Definition cst2coords (a_ca a_th : list F) (t_te : F) (n_coords : Z)
  : result (list F * list F * list F * list F * list F) :=
  x ← cosspace (ofZ 0) (ofZ 1) n_coords;
  y_c ← cst x a_ca None (Some (ofZ 1));
  t ← cst x a_th (Some (ofZ 0, t_te)) None;
  y_u ← arr_add y_c (arr_div_scalar t (ofZ 2));
  y_l ← arr_sub y_c (arr_div_scalar t (ofZ 2));
  mret (x, y_u, y_l, y_c, t).

(** [inputs[name]] on the OpenMDAO input vector. *)
Definition get_input (inputs : gmap string (list F)) (name : string)
  : result (list F) :=
  match inputs !! name with
  | Some v => Ok v
  | None => Err (KeyError name)
  end.

Definition compute_coords (self : AirfoilComponent) (inputs : gmap string (list F))
    (precision : option Z) (n_coords_arg : option Z)
  : result (list F * list F * list F * list F * list F) :=
  a_ca ← get_input inputs "a_ca";
  a_th ← get_input inputs "a_th";
  t_te_arr ← get_input inputs "t_te";
  t_te ← arr_index t_te_arr 0;
  let n := match n_coords_arg with
           | None => n_coords self
           | Some n => n
           end in
  '(x, y_u, y_l, y_c, t) ← cst2coords a_ca a_th t_te n;
  match precision with
  | Some p =>
      mret (np_round x p, np_round y_u p, np_round y_l p,
            np_round y_c p, np_round t p)
  | None => mret (x, y_u, y_l, y_c, t)
  end.
End Airfoil.

(** The five sequences of an output all have [k] elements. *)
Definition lengths_are {F : Type} (k : nat)
    (out : list F * list F * list F * list F * list F) : Prop :=
  let '(x, y_u, y_l, y_c, t) := out in
  length x = k /\ length y_u = k /\ length y_l = k /\
  length y_c = k /\ length t = k.

(** The optional rounding of an output: each of the five sequences on its
    own, or none of them. *)
Definition round_output {F : Type} (round_scalar : Z -> F -> F)
    (precision : option Z) (out : list F * list F * list F * list F * list F)
  : list F * list F * list F * list F * list F :=
  match precision with
  | Some p =>
      let '(x, y_u, y_l, y_c, t) := out in
      (np_round round_scalar x p, np_round round_scalar y_u p,
       np_round round_scalar y_l p, np_round round_scalar y_c p,
       np_round round_scalar t p)
  | None => out
  end.

(** ** The fit path in the words of the specification

    Section 4.2 describes [coords2cst] on a shared grid: the camber is the
    pointwise mean of the two surfaces, the thickness their pointwise
    difference; the camber fit is constrained, the thickness fit is not,
    and the trailing-edge thickness is the second boundary value of the
    thickness fit. *)

Section FitSpec.
Context {F : Type} `{Scalar F}.
Variable fit :
  list F -> list F -> Z -> option (F * F) -> option F -> result (list F * (F * F)).

Definition camber (y_u y_l : list F) : list F :=
  zip_with (fun u l => div (add u l) (ofZ 2)) y_u y_l.

Definition thickness (y_u y_l : list F) : list F :=
  zip_with sub y_u y_l.

Definition coords2cst_spec (x y_u y_l : list F) (n_ca n_th : Z)
  : result (list F * list F * F) :=
  match fit x (camber y_u y_l) n_ca (Some (ofZ 0, ofZ 0)) (Some (ofZ 1)) with
  | Err e => Err e
  | Ok (a_ca, _) =>
      match fit x (thickness y_u y_l) n_th None None with
      | Err e => Err e
      | Ok (a_th, boundary) => Ok (a_ca, a_th, snd boundary)
      end
  end.
End FitSpec.

(** ** The two readings of the scalar type *)

Module Exact.
(** Exact arithmetic: array elements are real numbers. *)
#[global] Instance R_scalar : Scalar R := {
  ofZ := IZR;
  add := Rplus;
  sub := Rminus;
  mul := Rmult;
  div := Rdiv
}.

(** The integer nearest to [v], ties to the even one. *)
Definition rint (v : R) : Z :=
  let f := (up v - 1)%Z in
  let r := (v - IZR f)%R in
  if Rlt_dec r (1 / 2) then f
  else if Rlt_dec (1 / 2) r then (f + 1)%Z
  else if Z.even f then f else (f + 1)%Z.

(** Rounding to [decimals] places. *)
Definition round_scalar (decimals : Z) (v : R) : R :=
  (IZR (rint (v * powerRZ 10 decimals)) / powerRZ 10 decimals)%R.
End Exact.

Module Binary64.
(** Python [int] to [float], exact below 2^53; only small literals
    occur in the module. *)
Fixpoint float_of_pos (p : positive) : float :=
  match p with
  | xH => PrimFloat.one
  | xO q => PrimFloat.mul PrimFloat.two (float_of_pos q)
  | xI q => PrimFloat.add (PrimFloat.mul PrimFloat.two (float_of_pos q)) PrimFloat.one
  end.

Definition float_of_Z (z : Z) : float :=
  match z with
  | Z0 => PrimFloat.zero
  | Zpos p => float_of_pos p
  | Zneg p => PrimFloat.opp (float_of_pos p)
  end.

(** What numpy computes with: IEEE 754 binary64, round to nearest even. *)
#[global] Instance float_scalar : Scalar float := {
  ofZ := float_of_Z;
  add := PrimFloat.add;
  sub := PrimFloat.sub;
  mul := PrimFloat.mul;
  div := PrimFloat.div
}.

(** Round to the nearest integer, ties to even, below 2^52 in magnitude
    (above it every binary64 number is an integer). *)
Definition rint (v : float) : float :=
  let m := 0x1p52%float in
  if PrimFloat.ltb (PrimFloat.abs v) m then
    let r := PrimFloat.sub (PrimFloat.add (PrimFloat.abs v) m) m in
    if PrimFloat.get_sign v then PrimFloat.opp r else r
  else v.

(** numpy's rounding to [decimals] places: scale, [rint], scale back. *)
Definition round_scalar (decimals : Z) (v : float) : float :=
  if (0 <=? decimals)%Z then
    let s := float_of_Z (10 ^ decimals) in
    PrimFloat.div (rint (PrimFloat.mul v s)) s
  else
    let s := float_of_Z (10 ^ (- decimals)) in
    PrimFloat.mul (rint (PrimFloat.div v s)) s.
End Binary64.

(** ** The helper module [af_opt.util] *)

Module Util.
(** Modelled from the spec: [cosspace] is defined in [af_opt/util.py],
    which is missing from the sources.  Section 4.1 of the
    specification gives its contract: [N] values
    [t_i = lo + (hi - lo) * (1 - cos (pi * i / (N - 1))) / 2] for
    [i = 0 .. N - 1], and an invalid-argument failure when [N < 2]. *)
Definition cosspace (lo hi : R) (N : Z) : result (list R) :=
  if (N <? 2)%Z then Err InvalidArgument
  else Ok ((fun i : nat =>
              (lo + (hi - lo) * (1 - cos (PI * INR i / IZR (N - 1))) / 2)%R)
           <$> seq 0 (Z.to_nat N)).
End Util.

(** ** Stand-ins for the external collaborators

    The [cst] package is a dependency, not part of the repository; the
    theorems below quantify over it.  To run the embedding on concrete
    inputs the following simple collaborators are used. *)

Module Standin.
Section Standin.
Context {F : Type} `{Scalar F}.

(** The three-point cosine grid, where [cos (pi / 2) = 0] makes the
    middle point the midpoint and no cosine is needed. *)
Definition cosspace3 (lo hi : F) (N : Z) : result (list F) :=
  if (N =? 3)%Z then Ok [lo; add lo (div (sub hi lo) (ofZ 2)); hi]
  else Err InvalidArgument.

(** Horner evaluation of a coefficient vector. *)
Definition horner (a : list F) (v : F) : F :=
  foldr (fun c acc => add c (mul v acc)) (ofZ 0) a.

(** A class-times-shape curve with unit class exponents and a
    polynomial shape function, plus the linear boundary term. *)
Definition poly_cst (x a : list F) (delta : option (F * F)) (n1 : option F)
  : result (list F) :=
  let d := default (ofZ 0, ofZ 0) delta in
  Ok ((fun v =>
         add (mul (mul v (sub (ofZ 1) v)) (horner a v))
             (add (mul (sub (ofZ 1) v) (fst d)) (mul v (snd d))))
      <$> x).

(** A degenerate fit: zero coefficients, boundary values either as
    imposed or read off the end points of the data.  It rejects data
    that is not on the grid. *)
Definition endpoint_fit (x y : list F) (n : Z) (delta : option (F * F))
    (n1 : option F) : result (list F * (F * F)) :=
  if decide (length x = length y) then
    Ok (replicate (Z.to_nat n) (ofZ 0),
        default (default (ofZ 0) (head y), default (ofZ 0) (last y)) delta)
  else Err ShapeMismatch.
End Standin.
End Standin.

(** ** The declared inputs *)

(** [AirfoilComponent.setup]: the inputs it registers with [add_input],
    by name and shape, in the order of the calls. *)
Definition setup (self : AirfoilComponent) : list (string * Z) :=
  [("a_ca", n_ca self); ("a_th", n_th self); ("t_te", 1%Z)].

(** An input vector that holds every declared input at its declared
    shape, the way the host framework hands it to the component. *)
Definition conforms {F : Type} (declared : list (string * Z))
    (inputs : gmap string (list F)) : bool :=
  forallb (fun d : string * Z =>
             match inputs !! d.1 with
             | Some v => (Z.of_nat (length v) =? d.2)%Z
             | None => false
             end)
          declared.

(** * Properties *)

(** ** The result monad *)

Lemma bind_Ok {A B : Type} (r : result A) (k : A -> result B) (b : B) :
  r ≫= k = Ok b -> exists a, r = Ok a /\ k a = Ok b.
Proof. destruct r as [a|e]; [eauto | discriminate]. Qed.

Lemma bind_Err {A B : Type} (r : result A) (k : A -> result B) (e : exn) :
  r = Err e -> r ≫= k = Err e.
Proof. intros ->. reflexivity. Qed.

(** Peel the successful binds of a hypothesis [H : ... = Ok _]. *)
Ltac inv_bind H :=
  repeat match type of H with
    | _ ≫= _ = Ok _ =>
        let a := fresh "v" in
        let E := fresh "E" in
        apply bind_Ok in H as (a & E & H)
    | mret _ = Ok _ => injection H as H
    | Ok _ = Ok _ => injection H as H
    end.

(** ** Array arithmetic *)

Section NdarrayFacts.
Context {F : Type} `{Scalar F}.

Lemma broadcast_same_length (op : F -> F -> F) (a b : list F) :
  length a = length b -> broadcast op a b = Ok (zip_with op a b).
Proof. intros E. unfold broadcast. destruct (decide _); [reflexivity | contradiction]. Qed.

(** Wherever both operands and the result have an element, the result
    is the operation applied to the operands (stretched or not). *)
Lemma broadcast_lookup (op : F -> F -> F) (a b r : list F) (i : nat) (u v w : F) :
  broadcast op a b = Ok r ->
  a !! i = Some u -> b !! i = Some v -> r !! i = Some w -> w = op u v.
Proof.
  unfold broadcast. intros Hr Ha Hb Hw.
  destruct (decide (length a = length b)) as [E|NE].
  - injection Hr as <-. rewrite lookup_zip_with, Ha, Hb in Hw. simpl in Hw. congruence.
  - destruct a as [|u' [|u'' a]].
    + discriminate.
    + injection Hr as <-. destruct i as [|i]; [|discriminate].
      rewrite list_lookup_fmap, Hb in Hw. simpl in *. congruence.
    + destruct b as [|v' [|v'' b]]; try discriminate.
      injection Hr as <-. destruct i as [|i]; [|discriminate].
      simpl in *. congruence.
Qed.

(** Mismatched shapes that cannot be stretched raise. *)
Lemma broadcast_mismatch (op : F -> F -> F) (a b : list F) :
  length a <> length b -> length a <> 1%nat -> length b <> 1%nat ->
  broadcast op a b = Err ShapeMismatch.
Proof.
  intros NE Na Nb. unfold broadcast. destruct (decide _); [contradiction|].
  destruct a as [|u [|u' a]], b as [|v [|v' b]]; simpl in *; congruence.
Qed.

Lemma broadcast_length (op : F -> F -> F) (a b r : list F) :
  length a = length b -> broadcast op a b = Ok r -> length r = length a.
Proof.
  intros E. rewrite broadcast_same_length by done. intros [= <-].
  rewrite length_zip_with. lia.
Qed.

Lemma arr_div_scalar_lookup (a : list F) (k : F) (i : nat) :
  arr_div_scalar a k !! i = (fun u => div u k) <$> (a !! i).
Proof. apply list_lookup_fmap. Qed.

Lemma arr_div_scalar_length (a : list F) (k : F) :
  length (arr_div_scalar a k) = length a.
Proof. apply length_fmap. Qed.
End NdarrayFacts.

(** ** The evaluate path *)

Section EvaluatePath.
Context {F : Type} `{Scalar F}.
Variable cosspace : F -> F -> Z -> result (list F).
Variable cst : list F -> list F -> option (F * F) -> option F -> result (list F).

(** A successful [cst2coords] went through each of its five steps. *)
Lemma cst2coords_Ok (a_ca a_th : list F) (t_te : F) (n : Z)
    (x y_u y_l y_c t : list F) :
  cst2coords cosspace cst a_ca a_th t_te n = Ok (x, y_u, y_l, y_c, t) <->
  cosspace (ofZ 0) (ofZ 1) n = Ok x /\
  cst x a_ca None (Some (ofZ 1)) = Ok y_c /\
  cst x a_th (Some (ofZ 0, t_te)) None = Ok t /\
  arr_add y_c (arr_div_scalar t (ofZ 2)) = Ok y_u /\
  arr_sub y_c (arr_div_scalar t (ofZ 2)) = Ok y_l.
Proof.
  unfold cst2coords. split.
  - intros Hc. inv_bind Hc. simplify_eq. auto.
  - intros (E1 & E2 & E3 & E4 & E5).
    rewrite E1; simpl. rewrite E2; simpl. rewrite E3; simpl.
    rewrite E4; simpl. rewrite E5; reflexivity.
Qed.

(** Each surface sample is the camber sample plus or minus half the
    thickness sample, in the arithmetic of the scalar type. *)
Lemma cst2coords_surfaces (a_ca a_th : list F) (t_te : F) (n : Z)
    (x y_u y_l y_c t : list F) (i : nat) (u l c th : F) :
  cst2coords cosspace cst a_ca a_th t_te n = Ok (x, y_u, y_l, y_c, t) ->
  y_u !! i = Some u -> y_l !! i = Some l ->
  y_c !! i = Some c -> t !! i = Some th ->
  u = add c (div th (ofZ 2)) /\ l = sub c (div th (ofZ 2)).
Proof.
  intros (_ & _ & _ & Hu & Hl)%cst2coords_Ok Iu Il Ic It.
  assert (arr_div_scalar t (ofZ 2) !! i = Some (div th (ofZ 2))) as Ih
    by (rewrite arr_div_scalar_lookup, It; reflexivity).
  split.
  - exact (broadcast_lookup _ _ _ _ _ _ _ _ Hu Ic Ih Iu).
  - exact (broadcast_lookup _ _ _ _ _ _ _ _ Hl Ic Ih Il).
Qed.
End EvaluatePath.

(** C2 (as amended).  At every grid point of a [cst2coords] output the
    upper sample is the scalar sum [y_c + t / 2] and the lower sample the
    scalar difference [y_c - t / 2]; over the reals this gives
    [y_u - y_l = t] and [(y_u + y_l) / 2 = y_c] exactly. *)
Theorem cst2coords_consistency :
  (forall (F : Type) (SF : Scalar F) cosspace cst a_ca a_th t_te n
          x y_u y_l y_c t (i : nat) (u l c th : F),
      cst2coords cosspace cst a_ca a_th t_te n = Ok (x, y_u, y_l, y_c, t) ->
      y_u !! i = Some u -> y_l !! i = Some l ->
      y_c !! i = Some c -> t !! i = Some th ->
      u = add c (div th (ofZ 2)) /\ l = sub c (div th (ofZ 2)))
  /\
  (forall cosspace cst a_ca a_th t_te n x y_u y_l y_c t (i : nat) (u l c th : R),
      cst2coords (F:=R) cosspace cst a_ca a_th t_te n = Ok (x, y_u, y_l, y_c, t) ->
      y_u !! i = Some u -> y_l !! i = Some l ->
      y_c !! i = Some c -> t !! i = Some th ->
      (u - l = th /\ (u + l) / 2 = c)%R).
Proof.
  split.
  - intros F SF. apply cst2coords_surfaces.
  - intros * Hc Iu Il Ic It.
    destruct (cst2coords_surfaces _ _ _ _ _ _ _ _ _ _ _ _ _ _ _ _ Hc Iu Il Ic It)
      as [-> ->].
    simpl. split; lra.
Qed.

(** The identities at the mid-chord point of a three-point grid, over
    the reals. *)
Lemma cst2coords_consistency_witness :
  exists x y_u y_l y_c t u l c th,
    cst2coords (F:=R) Util.cosspace Standin.poly_cst [1%R] [1%R] 0%R 3
      = Ok (x, y_u, y_l, y_c, t) /\
    y_u !! 1%nat = Some u /\ y_l !! 1%nat = Some l /\
    y_c !! 1%nat = Some c /\ t !! 1%nat = Some th /\
    (u - l = th /\ (u + l) / 2 = c)%R.
Proof.
  do 9 eexists.
  split; [reflexivity|].
  do 4 (split; [reflexivity|]).
  eapply (proj2 cst2coords_consistency Util.cosspace Standin.poly_cst
            [1%R] [1%R] 0%R 3%Z _ _ _ _ _ 1%nat); reflexivity.
Defined.

(** C2 fails in binary64: with camber 0.02 and thickness 0.1 at mid-chord
    the mean of the two surfaces is not the camber, and with camber 1 and
    thickness 0.1 their difference is not the thickness. *)
Lemma cst2coords_identity_fails_binary64 :
  (exists x y_u y_l y_c t u l c,
      cst2coords (F:=float) Standin.cosspace3 Standin.poly_cst
        [0.08%float] [0%float] 0.2%float 3 = Ok (x, y_u, y_l, y_c, t) /\
      y_u !! 1%nat = Some u /\ y_l !! 1%nat = Some l /\ y_c !! 1%nat = Some c /\
      div (add u l) (ofZ 2) <> c)
  /\
  (exists x y_u y_l y_c t u l th,
      cst2coords (F:=float) Standin.cosspace3 Standin.poly_cst
        [4%float] [0%float] 0.2%float 3 = Ok (x, y_u, y_l, y_c, t) /\
      y_u !! 1%nat = Some u /\ y_l !! 1%nat = Some l /\ t !! 1%nat = Some th /\
      sub u l <> th).
Proof.
  split.
  - do 8 eexists. split; [vm_compute; reflexivity|].
    do 3 (split; [reflexivity|]).
    intros E. apply (f_equal (fun v => PrimFloat.eqb v 0.02%float)) in E.
    vm_compute in E. discriminate.
  - do 8 eexists. split; [vm_compute; reflexivity|].
    do 3 (split; [reflexivity|]).
    intros E. apply (f_equal (fun v => PrimFloat.eqb v 0.1%float)) in E.
    vm_compute in E. discriminate.
Qed.

(** ** The parameter grid *)

Section Grid.
Variables lo hi : R.
Variable N : Z.
Hypothesis N_ge_2 : (2 <= N)%Z.

(** The [i]-th grid value of section 4.1. *)
Let node (i : nat) : R :=
  (lo + (hi - lo) * (1 - cos (PI * INR i / IZR (N - 1))) / 2)%R.

Let grid : list R := node <$> seq 0 (Z.to_nat N).

Lemma cosspace_Ok : Util.cosspace lo hi N = Ok grid.
Proof using N_ge_2.
  unfold Util.cosspace. destruct (Z.ltb_spec N 2); [lia | reflexivity].
Qed.

Lemma grid_length : length grid = Z.to_nat N.
Proof. unfold grid. rewrite length_fmap, length_seq. reflexivity. Qed.

Lemma grid_lookup (i : nat) : (i < Z.to_nat N)%nat -> grid !! i = Some (node i).
Proof.
  intros Hi. unfold grid. rewrite list_lookup_fmap, lookup_seq_lt by done.
  reflexivity.
Qed.

Lemma grid_lookup_inv (i : nat) (a : R) :
  grid !! i = Some a -> (i < Z.to_nat N)%nat /\ a = node i.
Proof.
  intros Hi. assert (i < Z.to_nat N)%nat as Hlt.
  { rewrite <- grid_length. eapply lookup_lt_Some, Hi. }
  rewrite grid_lookup in Hi by done. split; congruence.
Qed.

Lemma denominator_pos : (0 < IZR (N - 1))%R.
Proof using N_ge_2. apply IZR_lt. lia. Qed.

(** The angle of the [i]-th node lies in [0, pi], and grows with [i]. *)
Lemma angle_range (i : nat) :
  (i < Z.to_nat N)%nat -> (0 <= PI * INR i / IZR (N - 1) <= PI)%R.
Proof using N_ge_2.
  intros Hi. pose proof denominator_pos as Hd. pose proof PI_RGT_0 as Hpi.
  assert (0 <= INR i <= IZR (N - 1))%R as [H0 H1].
  { split; [apply pos_INR|]. rewrite INR_IZR_INZ. apply IZR_le. lia. }
  split.
  - apply Rmult_le_pos; [nra | left; apply Rinv_0_lt_compat, Hd].
  - apply (Rmult_le_reg_r (IZR (N - 1))); [exact Hd|].
    unfold Rdiv. rewrite Rmult_assoc, Rinv_l by lra. nra.
Qed.

Lemma angle_mono (i j : nat) :
  (i <= j)%nat -> (PI * INR i / IZR (N - 1) <= PI * INR j / IZR (N - 1))%R.
Proof using N_ge_2.
  intros Hij. pose proof denominator_pos as Hd. pose proof PI_RGT_0 as Hpi.
  apply le_INR in Hij.
  apply Rmult_le_compat_r; [left; apply Rinv_0_lt_compat, Hd | nra].
Qed.

Lemma node_first : node 0 = lo.
Proof.
  unfold node. simpl INR. unfold Rdiv at 2. rewrite Rmult_0_r, Rmult_0_l, cos_0. lra.
Qed.

Lemma node_last : node (Z.to_nat (N - 1)) = hi.
Proof using N_ge_2.
  unfold node. pose proof denominator_pos as Hd.
  rewrite INR_IZR_INZ, Z2Nat.id by lia.
  replace (PI * IZR (N - 1) / IZR (N - 1))%R with PI by (field; lra).
  rewrite cos_PI. lra.
Qed.

Lemma node_mono (i j : nat) :
  (lo <= hi)%R -> (i <= j)%nat -> (j < Z.to_nat N)%nat -> (node i <= node j)%R.
Proof using N_ge_2.
  intros Hb Hij Hj. unfold node.
  assert (i < Z.to_nat N)%nat as Hi by lia.
  pose proof (angle_range i Hi) as [Hi0 Hi1].
  pose proof (angle_range j Hj) as [Hj0 Hj1].
  pose proof (cos_decr_1 _ _ Hi0 Hi1 Hj0 Hj1 (angle_mono i j Hij)) as Hcos.
  nra.
Qed.
End Grid.

(** For three points the cosine grid is the two bounds and their
    midpoint: the tabulated grid used on binary64 is the grid of
    section 4.1. *)
Lemma cosspace3_agrees (lo hi : R) :
  Util.cosspace lo hi 3 = Standin.cosspace3 lo hi 3.
Proof.
  unfold Util.cosspace, Standin.cosspace3. simpl.
  change (IZR (3 - 1)) with 2%R.
  replace (PI * 0 / 2)%R with 0%R by lra.
  replace (PI * 1 / 2)%R with (PI / 2)%R by lra.
  replace (PI * (1 + 1) / 2)%R with PI by lra.
  rewrite cos_0, cos_PI2, cos_PI. do 2 f_equal; [lra|]. f_equal; [lra|].
  f_equal. lra.
Qed.

(** The contract of section 4.1 for one pair of bounds. *)
Lemma cosspace_grid (lo hi : R) (N : Z) :
  (2 <= N)%Z ->
  exists g : list R,
    Util.cosspace lo hi N = Ok g /\
    length g = Z.to_nat N /\
    (forall i : nat, (i < Z.to_nat N)%nat ->
       g !! i = Some (lo + (hi - lo) * (1 - cos (PI * INR i / IZR (N - 1))) / 2)%R) /\
    head g = Some lo /\
    last g = Some hi /\
    ((lo <= hi)%R ->
     forall (i j : nat) (a b : R),
       (i <= j)%nat -> g !! i = Some a -> g !! j = Some b -> (a <= b)%R).
Proof.
  intros HN. eexists. split; [apply cosspace_Ok, HN|].
  split; [apply grid_length|].
  split; [intros i Hi; apply grid_lookup, Hi|].
  split; [|split].
  - rewrite head_lookup, grid_lookup by lia. f_equal. apply node_first.
  - rewrite last_lookup, grid_length, grid_lookup by lia. f_equal.
    replace (Nat.pred (Z.to_nat N)) with (Z.to_nat (N - 1)) by lia.
    apply node_last, HN.
  - intros Hb i j a b Hij [Hi ->]%grid_lookup_inv [Hj ->]%grid_lookup_inv.
    apply node_mono; assumption.
Qed.

(** C5.  For [N >= 2] the grid of [cosspace lo hi N] has exactly [N]
    values, the [i]-th being
    [lo + (hi - lo) * (1 - cos (pi * i / (N - 1))) / 2]; it starts at [lo],
    ends at [hi] and, the bounds being in order, is non-decreasing.  The
    grid that [cst2coords] returns is the one for the bounds 0 and 1: it
    has [N] values, starts at 0, ends at 1 and is non-decreasing. *)
Theorem cosspace_contract (lo hi : R) (N : Z) :
  (2 <= N)%Z ->
  (exists g : list R,
      Util.cosspace lo hi N = Ok g /\
      length g = Z.to_nat N /\
      (forall i : nat, (i < Z.to_nat N)%nat ->
         g !! i = Some (lo + (hi - lo) * (1 - cos (PI * INR i / IZR (N - 1))) / 2)%R) /\
      head g = Some lo /\
      last g = Some hi /\
      ((lo <= hi)%R ->
       forall (i j : nat) (a b : R),
         (i <= j)%nat -> g !! i = Some a -> g !! j = Some b -> (a <= b)%R)) /\
  (forall cst a_ca a_th t_te x y_u y_l y_c t,
      cst2coords Util.cosspace cst a_ca a_th t_te N = Ok (x, y_u, y_l, y_c, t) ->
      Util.cosspace 0 1 N = Ok x /\
      length x = Z.to_nat N /\
      (forall i : nat, (i < Z.to_nat N)%nat ->
         x !! i = Some ((1 - cos (PI * INR i / IZR (N - 1))) / 2)%R) /\
      head x = Some 0%R /\
      last x = Some 1%R /\
      (forall (i j : nat) (a b : R),
         (i <= j)%nat -> x !! i = Some a -> x !! j = Some b -> (a <= b)%R)).
Proof.
  intros HN. split; [apply cosspace_grid, HN|].
  intros * Hc. apply cst2coords_Ok in Hc as (Hx & _).
  destruct (cosspace_grid 0 1 N HN) as (g & Hg & Hlen & Hnode & Hh & Hl & Hm).
  simpl in Hx. rewrite Hg in Hx. injection Hx as <-.
  repeat split; try assumption.
  - intros i Hi. rewrite (Hnode i Hi). f_equal. lra.
  - apply Hm. lra.
Qed.

(** The five-point grid on [[0, 1]]. *)
Lemma cosspace_contract_witness :
  (2 <= 5)%Z /\
  exists g : list R,
    Util.cosspace 0 1 5 = Ok g /\ length g = 5%nat /\
    head g = Some 0%R /\ last g = Some 1%R /\
    forall (i j : nat) (a b : R),
      (i <= j)%nat -> g !! i = Some a -> g !! j = Some b -> (a <= b)%R.
Proof.
  assert (2 <= 5)%Z as H5 by lia. split; [exact H5|].
  destruct (proj1 (cosspace_contract 0 1 5 H5)) as (g & Hg & Hlen & _ & Hh & Hl & Hm).
  exists g. repeat split; try assumption. apply Hm. lra.
Defined.

(** C9.  A sample count below two is rejected by [cosspace] with an
    invalid-argument failure, and so is every [cst2coords] call with such
    a count, whatever the evaluator. *)
Theorem cosspace_rejects_degenerate (lo hi : R) (N : Z) :
  (N < 2)%Z ->
  Util.cosspace lo hi N = Err InvalidArgument /\
  forall cst a_ca a_th t_te,
    cst2coords Util.cosspace cst a_ca a_th t_te N = Err InvalidArgument.
Proof.
  intros HN.
  assert (forall a b, Util.cosspace a b N = Err InvalidArgument) as Hrej.
  { intros a b. unfold Util.cosspace. destruct (Z.ltb_spec N 2); [reflexivity | lia]. }
  split; [apply Hrej|].
  intros. unfold cst2coords. apply bind_Err, Hrej.
Qed.

(** One sample cannot define a spacing. *)
Lemma cosspace_rejects_degenerate_witness :
  (1 < 2)%Z /\
  Util.cosspace 0 1 1 = Err InvalidArgument /\
  cst2coords Util.cosspace Standin.poly_cst [1%R] [1%R] 0%R 1 = Err InvalidArgument.
Proof.
  assert (1 < 2)%Z as H1 by lia. split; [exact H1|].
  destruct (cosspace_rejects_degenerate 0 1 1 H1) as [Hg Hc].
  split; [exact Hg | apply Hc].
Defined.

(** ** The fit path *)

Section FitPath.
Context {F : Type} `{Scalar F}.
Variable fit :
  list F -> list F -> Z -> option (F * F) -> option F -> result (list F * (F * F)).

Lemma arr_div_scalar_zip_with (op : F -> F -> F) (a b : list F) (k : F) :
  arr_div_scalar (zip_with op a b) k = zip_with (fun u l => div (op u l) k) a b.
Proof.
  unfold arr_div_scalar. revert b.
  induction a as [|u a IH]; intros [|v b]; simpl; [reflexivity..|].
  f_equal. apply IH.
Qed.

(** On surfaces of one length the two array expressions of [coords2cst]
    are the camber and the thickness of the specification. *)
Lemma coords2cst_decomposition (y_u y_l : list F) :
  length y_u = length y_l ->
  (s ← arr_add y_u y_l; mret (arr_div_scalar s (ofZ 2))) = Ok (camber y_u y_l) /\
  arr_sub y_u y_l = Ok (thickness y_u y_l).
Proof.
  intros E. unfold arr_add, arr_sub.
  rewrite !broadcast_same_length by done. simpl.
  split; [|reflexivity]. unfold mret, result_ret. f_equal.
  apply arr_div_scalar_zip_with.
Qed.

(** On surfaces of one length [coords2cst] is the pipeline of the
    specification. *)
Lemma coords2cst_on_grid (x y_u y_l : list F) (n_ca n_th : Z) :
  length y_u = length y_l ->
  coords2cst fit x y_u y_l n_ca n_th = coords2cst_spec fit x y_u y_l n_ca n_th.
Proof.
  intros E.
  destruct (coords2cst_decomposition y_u y_l E) as [Hc Ht].
  unfold coords2cst, coords2cst_spec.
  apply bind_Ok in Hc as (s & -> & [= <-]). rewrite Ht. simpl.
  destruct (fit x _ n_ca _ _) as [[a_ca bc]|e]; simpl; [|reflexivity].
  destruct (fit x _ n_th _ _) as [[a_th bt]|e]; reflexivity.
Qed.

(** Surfaces whose lengths differ, neither being one, stop [coords2cst]
    at its first line. *)
Lemma coords2cst_mismatch (x y_u y_l : list F) (n_ca n_th : Z) :
  length y_u <> length y_l -> length y_u <> 1%nat -> length y_l <> 1%nat ->
  coords2cst fit x y_u y_l n_ca n_th = Err ShapeMismatch.
Proof.
  intros NE Nu Nl. unfold coords2cst.
  apply bind_Err, broadcast_mismatch; assumption.
Qed.

(** A length-one upper surface is stretched over the lower one: the call
    is the call on the stretched surface. *)
Lemma coords2cst_stretch_upper (x y_l : list F) (u : F) (n_ca n_th : Z) :
  coords2cst fit x [u] y_l n_ca n_th
  = coords2cst fit x (replicate (length y_l) u) y_l n_ca n_th.
Proof.
  unfold coords2cst, arr_add, arr_sub.
  rewrite !(broadcast_same_length _ (replicate _ _)) by apply length_replicate.
  assert (forall op : F -> F -> F,
             broadcast op [u] y_l = Ok (zip_with op (replicate (length y_l) u) y_l))
    as Hs.
  { intros op. unfold broadcast. destruct (decide _) as [E|NE].
    - destruct y_l as [|v [|v' y_l]]; simpl in *; try discriminate. reflexivity.
    - f_equal. clear NE. induction y_l as [|v y_l IH]; simpl; [reflexivity|].
      f_equal. apply IH. }
  rewrite !Hs. reflexivity.
Qed.
End FitPath.

(** C3.  On surfaces sampled on the grid [x], [coords2cst] fits the
    pointwise mean [(y_u + y_l) / 2] with boundary values (0, 0) and
    leading exponent 1, fits the pointwise difference [y_u - y_l] with the
    defaults of the fit, and returns the second boundary value of the
    thickness fit as trailing-edge thickness. *)
Theorem coords2cst_refines_spec {F : Type} `{Scalar F} fit
    (x y_u y_l : list F) (n_ca n_th : Z) :
  length y_u = length x -> length y_l = length x ->
  coords2cst fit x y_u y_l n_ca n_th = coords2cst_spec fit x y_u y_l n_ca n_th.
Proof.
  intros Eu El. apply coords2cst_on_grid. congruence.
Qed.

(** A three-point profile in binary64. *)
Lemma coords2cst_refines_spec_witness :
  let x := [0%float; 0.5%float; 1%float] in
  let y_u := [0%float; 0.07%float; 0.1%float] in
  let y_l := [0%float; (-0.03)%float; (-0.1)%float] in
  length y_u = length x /\ length y_l = length x /\
  coords2cst Standin.endpoint_fit x y_u y_l 2 2
  = coords2cst_spec Standin.endpoint_fit x y_u y_l 2 2.
Proof.
  intros x y_u y_l.
  assert (length y_u = length x) as Eu by reflexivity.
  assert (length y_l = length x) as El by reflexivity.
  split; [exact Eu|]. split; [exact El|].
  exact (coords2cst_refines_spec Standin.endpoint_fit x y_u y_l 2 2 Eu El).
Defined.

(** C4 (as amended).  When [y_u] and [y_l] differ in length and neither
    has length one, [coords2cst] fails with the shape mismatch of the
    array addition, before any fit, and returns nothing.  An upper surface
    of length one is stretched over the lower one, and on surfaces of one
    length the call is the pipeline of the specification whatever the
    length of [x], which only the fit sees. *)
Theorem coords2cst_shape_mismatch {F : Type} `{Scalar F} fit
    (x y_u y_l : list F) (n_ca n_th : Z) :
  (length y_u <> length y_l -> length y_u <> 1%nat -> length y_l <> 1%nat ->
   coords2cst fit x y_u y_l n_ca n_th = Err ShapeMismatch) /\
  (forall u : F,
      coords2cst fit x [u] y_l n_ca n_th
      = coords2cst fit x (replicate (length y_l) u) y_l n_ca n_th) /\
  (length y_u = length y_l ->
   coords2cst fit x y_u y_l n_ca n_th = coords2cst_spec fit x y_u y_l n_ca n_th).
Proof.
  split; [apply coords2cst_mismatch|].
  split; [intros u; apply coords2cst_stretch_upper | apply coords2cst_on_grid].
Qed.

(** Two upper samples against three lower samples. *)
Lemma coords2cst_shape_mismatch_witness :
  let x := [0%float; 0.5%float; 1%float] in
  let y_u := [0.07%float; 0.1%float] in
  let y_l := [0%float; (-0.03)%float; (-0.1)%float] in
  length y_u <> length y_l /\ length y_u <> 1%nat /\ length y_l <> 1%nat /\
  coords2cst Standin.endpoint_fit x y_u y_l 2 2 = Err ShapeMismatch.
Proof.
  intros x y_u y_l.
  assert (length y_u <> length y_l) as NE by (simpl; lia).
  assert (length y_u <> 1%nat) as Nu by (simpl; lia).
  assert (length y_l <> 1%nat) as Nl by (simpl; lia).
  repeat (split; [assumption|]).
  exact (proj1 (coords2cst_shape_mismatch Standin.endpoint_fit x y_u y_l 2 2)
           NE Nu Nl).
Defined.

(** C4 fails as stated: an upper surface of length one against a grid of
    three points is stretched by the array arithmetic, so the call is the
    call on three equal upper samples whatever the fit is, and with a fit
    that accepts data on the grid it returns coefficients. *)
Lemma coords2cst_accepts_length_one :
  let x := [0%float; 0.5%float; 1%float] in
  let y_u := [0.1%float] in
  let y_l := [0%float; (-0.1)%float; 0%float] in
  length y_u <> length x /\
  (forall fit n_ca n_th,
      coords2cst fit x y_u y_l n_ca n_th
      = coords2cst fit x [0.1%float; 0.1%float; 0.1%float] y_l n_ca n_th) /\
  coords2cst Standin.endpoint_fit x y_u y_l 1 1
  = Ok ([0%float], [0%float], 0.1%float).
Proof.
  intros x y_u y_l. split; [simpl; lia|]. split.
  - intros fit n_ca n_th.
    exact (coords2cst_stretch_upper fit x y_l 0.1%float n_ca n_th).
  - vm_compute. reflexivity.
Qed.

(** ** The component *)

Section Component.
Context {F : Type} `{Scalar F}.
Variable cosspace : F -> F -> Z -> result (list F).
Variable cst : list F -> list F -> option (F * F) -> option F -> result (list F).
Variable round_scalar : Z -> F -> F.

(** With its three inputs present, [compute_coords] is [cst2coords] on
    them, at the overriding sample count if there is one, followed by the
    optional rounding. *)
Lemma compute_coords_unfold (self : AirfoilComponent) (inputs : gmap string (list F))
    (precision n_arg : option Z) (a_ca a_th rest : list F) (t_te : F) :
  inputs !! "a_ca" = Some a_ca ->
  inputs !! "a_th" = Some a_th ->
  inputs !! "t_te" = Some (t_te :: rest) ->
  compute_coords cosspace cst round_scalar self inputs precision n_arg
  = out ← cst2coords cosspace cst a_ca a_th t_te (default (n_coords self) n_arg);
    Ok (round_output round_scalar precision out).
Proof.
  intros Ea Eh Et. unfold compute_coords, get_input.
  rewrite Ea, Eh, Et. simpl.
  replace (match n_arg with Some n => n | None => n_coords self end)
    with (default (n_coords self) n_arg) by (destruct n_arg; reflexivity).
  destruct (cst2coords _ _ _ _ _ _) as [[[[[x y_u] y_l] y_c] t]|e]; simpl;
    [destruct precision|]; reflexivity.
Qed.

(** A grid of the requested length and an evaluator that answers on the
    grid give five sequences of the requested length. *)
Lemma cst2coords_lengths (a_ca a_th : list F) (t_te : F) (n : Z) :
  (exists x, cosspace (ofZ 0) (ofZ 1) n = Ok x /\ length x = Z.to_nat n) ->
  (forall x a delta n1, exists y, cst x a delta n1 = Ok y /\ length y = length x) ->
  exists out,
    cst2coords cosspace cst a_ca a_th t_te n = Ok out /\
    lengths_are (Z.to_nat n) out.
Proof.
  intros (x & Hx & Lx) Hcst.
  destruct (Hcst x a_ca None (Some (ofZ 1))) as (y_c & Hc & Lc).
  destruct (Hcst x a_th (Some (ofZ 0, t_te)) None) as (t & Ht & Lt).
  assert (length y_c = length (arr_div_scalar t (ofZ 2))) as E
    by (rewrite arr_div_scalar_length; congruence).
  exists (x, zip_with add y_c (arr_div_scalar t (ofZ 2)),
          zip_with sub y_c (arr_div_scalar t (ofZ 2)), y_c, t).
  split.
  - apply cst2coords_Ok. unfold arr_add, arr_sub.
    rewrite !broadcast_same_length by exact E. auto.
  - simpl. rewrite !length_zip_with, <- E. repeat split; lia.
Qed.

(** Rounding keeps the lengths. *)
Lemma lengths_are_round (k : nat) (precision : option Z)
    (out : list F * list F * list F * list F * list F) :
  lengths_are k out -> lengths_are k (round_output round_scalar precision out).
Proof.
  destruct out as [[[[x y_u] y_l] y_c] t], precision as [p|]; simpl; [|trivial].
  unfold np_round. rewrite !length_fmap. trivial.
Qed.
End Component.

(** C7.  With a grid generator that returns the requested number of
    points and an evaluator that answers on the grid, [cst2coords] returns
    five sequences of [n_coords] elements each, and [compute_coords] called
    with an explicit sample count returns sequences of that length,
    whatever count the component was configured with. *)
Theorem coords_have_requested_length {F : Type} `{Scalar F}
    (cosspace : F -> F -> Z -> result (list F))
    (cst : list F -> list F -> option (F * F) -> option F -> result (list F))
    (round_scalar : Z -> F -> F)
    (a_ca a_th : list F) (t_te : F) (n : Z) :
  (2 <= n)%Z ->
  (forall lo hi m, (2 <= m)%Z ->
     exists x, cosspace lo hi m = Ok x /\ length x = Z.to_nat m) ->
  (forall x a delta n1, exists y, cst x a delta n1 = Ok y /\ length y = length x) ->
  (exists out,
      cst2coords cosspace cst a_ca a_th t_te n = Ok out /\
      lengths_are (Z.to_nat n) out) /\
  (forall (self : AirfoilComponent) (inputs : gmap string (list F)) rest precision,
      inputs !! "a_ca" = Some a_ca ->
      inputs !! "a_th" = Some a_th ->
      inputs !! "t_te" = Some (t_te :: rest) ->
      exists out,
        compute_coords cosspace cst round_scalar self inputs precision (Some n)
        = Ok out /\
        lengths_are (Z.to_nat n) out).
Proof.
  intros Hn Hgrid Hcst.
  destruct (cst2coords_lengths cosspace cst a_ca a_th t_te n (Hgrid _ _ n Hn) Hcst)
    as (out & Hout & Hlen).
  split; [eauto|].
  intros self inputs rest precision Ea Eh Et.
  exists (round_output round_scalar precision out). split.
  - rewrite (compute_coords_unfold _ _ _ _ _ _ _ _ _ _ _ Ea Eh Et). simpl.
    rewrite Hout. reflexivity.
  - apply lengths_are_round, Hlen.
Qed.

(** Three samples requested from a component configured for a hundred,
    over the reals. *)
Lemma coords_have_requested_length_witness :
  let inputs : gmap string (list R) :=
    <["a_ca" := [1%R]]> (<["a_th" := [1%R]]> (<["t_te" := [0%R]]> ∅)) in
  (2 <= 3)%Z /\
  n_coords initialize = 100%Z /\
  exists out,
    compute_coords Util.cosspace Standin.poly_cst Exact.round_scalar
      initialize inputs None (Some 3%Z) = Ok out /\
    lengths_are 3 out.
Proof.
  intros inputs.
  assert (2 <= 3)%Z as H3 by lia.
  split; [exact H3|]. split; [reflexivity|].
  refine (proj2 (coords_have_requested_length Util.cosspace Standin.poly_cst
                   Exact.round_scalar [1%R] [1%R] 0%R 3 H3 _ _)
            initialize inputs [] None eq_refl eq_refl eq_refl).
  - intros lo hi m Hm. eexists. split; [apply cosspace_Ok, Hm | apply grid_length].
  - intros x a delta n1. eexists. split; [reflexivity | apply length_fmap].
Defined.

(** C8.  With its inputs present, [compute_coords] without a precision
    returns what [cst2coords] returns; with a precision [p] it returns the
    five sequences of [cst2coords], each rounded on its own to [p]
    decimals, and fails as [cst2coords] fails. *)
Theorem compute_coords_rounding {F : Type} `{Scalar F}
    (cosspace : F -> F -> Z -> result (list F))
    (cst : list F -> list F -> option (F * F) -> option F -> result (list F))
    (round_scalar : Z -> F -> F)
    (self : AirfoilComponent) (inputs : gmap string (list F)) (n_arg : option Z)
    (a_ca a_th rest : list F) (t_te : F) :
  inputs !! "a_ca" = Some a_ca ->
  inputs !! "a_th" = Some a_th ->
  inputs !! "t_te" = Some (t_te :: rest) ->
  let n := default (n_coords self) n_arg in
  compute_coords cosspace cst round_scalar self inputs None n_arg
  = cst2coords cosspace cst a_ca a_th t_te n /\
  (forall p x y_u y_l y_c t,
      cst2coords cosspace cst a_ca a_th t_te n = Ok (x, y_u, y_l, y_c, t) ->
      compute_coords cosspace cst round_scalar self inputs (Some p) n_arg
      = Ok (round_scalar p <$> x, round_scalar p <$> y_u, round_scalar p <$> y_l,
            round_scalar p <$> y_c, round_scalar p <$> t)) /\
  (forall p e,
      cst2coords cosspace cst a_ca a_th t_te n = Err e ->
      compute_coords cosspace cst round_scalar self inputs (Some p) n_arg = Err e).
Proof.
  intros Ea Eh Et n.
  pose proof (fun precision =>
    compute_coords_unfold cosspace cst round_scalar self inputs precision n_arg
      _ _ _ _ Ea Eh Et) as Hu.
  fold n in Hu. split; [|split].
  - rewrite Hu. destruct (cst2coords _ _ _ _ _ n); reflexivity.
  - intros p x y_u y_l y_c t Hc. rewrite Hu, Hc. reflexivity.
  - intros p e Hc. rewrite Hu, Hc. reflexivity.
Qed.

(** Rounding a three-point binary64 output to one decimal. *)
Lemma compute_coords_rounding_witness :
  let inputs : gmap string (list float) :=
    <["a_ca" := [0.25%float]]>
      (<["a_th" := [0.5%float]]> (<["t_te" := [0.125%float]]> ∅)) in
  let run := compute_coords Standin.cosspace3 Standin.poly_cst
               Binary64.round_scalar initialize inputs in
  cst2coords Standin.cosspace3 Standin.poly_cst
    [0.25%float] [0.5%float] 0.125%float 3
  = Ok ([0%float; 0.5%float; 1%float],
        [0%float; 0.15625%float; 0.0625%float],
        [0%float; (-0.03125)%float; (-0.0625)%float],
        [0%float; 0.0625%float; 0%float],
        [0%float; 0.1875%float; 0.125%float]) /\
  run (Some 1%Z) (Some 3%Z)
  = Ok ([0%float; 0.5%float; 1%float],
        [0%float; 0.2%float; 0.1%float],
        [0%float; (-0)%float; (-0.1)%float],
        [0%float; 0.1%float; 0%float],
        [0%float; 0.2%float; 0.1%float]).
Proof.
  intros inputs run.
  assert (cst2coords Standin.cosspace3 Standin.poly_cst
            [0.25%float] [0.5%float] 0.125%float 3
          = Ok ([0%float; 0.5%float; 1%float],
                [0%float; 0.15625%float; 0.0625%float],
                [0%float; (-0.03125)%float; (-0.0625)%float],
                [0%float; 0.0625%float; 0%float],
                [0%float; 0.1875%float; 0.125%float])) as Hc
    by (vm_compute; reflexivity).
  split; [exact Hc|].
  destruct (compute_coords_rounding Standin.cosspace3 Standin.poly_cst
              Binary64.round_scalar initialize inputs (Some 3%Z)
              [0.25%float] [0.5%float] [] 0.125%float eq_refl eq_refl eq_refl)
    as (_ & Hround & _).
  unfold run. rewrite (Hround 1%Z _ _ _ _ _ Hc). vm_compute. reflexivity.
Defined.

(** C10.  [compute_coords] reads the trailing-edge thickness from the
    first element of the [t_te] input only: two input vectors with the
    same [a_ca], the same [a_th] and the same first element of [t_te] give
    the same result. *)
Theorem compute_coords_reads_first_t_te {F : Type} `{Scalar F}
    (cosspace : F -> F -> Z -> result (list F))
    (cst : list F -> list F -> option (F * F) -> option F -> result (list F))
    (round_scalar : Z -> F -> F)
    (self : AirfoilComponent) (inputs1 inputs2 : gmap string (list F))
    (precision n_arg : option Z) (v : F) (rest1 rest2 : list F) :
  inputs1 !! "a_ca" = inputs2 !! "a_ca" ->
  inputs1 !! "a_th" = inputs2 !! "a_th" ->
  inputs1 !! "t_te" = Some (v :: rest1) ->
  inputs2 !! "t_te" = Some (v :: rest2) ->
  compute_coords cosspace cst round_scalar self inputs1 precision n_arg
  = compute_coords cosspace cst round_scalar self inputs2 precision n_arg.
Proof.
  intros Ea Eh E1 E2. unfold compute_coords, get_input.
  rewrite Ea, Eh, E1, E2.
  destruct (inputs2 !! "a_ca"); [|reflexivity].
  destruct (inputs2 !! "a_th"); reflexivity.
Qed.

(** An input vector whose [t_te] carries a second element. *)
Lemma compute_coords_reads_first_t_te_witness :
  let inputs1 : gmap string (list float) :=
    <["a_ca" := [0.25%float]]>
      (<["a_th" := [0.5%float]]> (<["t_te" := [0.125%float]]> ∅)) in
  let inputs2 : gmap string (list float) :=
    <["a_ca" := [0.25%float]]>
      (<["a_th" := [0.5%float]]> (<["t_te" := [0.125%float; 7%float]]> ∅)) in
  compute_coords Standin.cosspace3 Standin.poly_cst Binary64.round_scalar
    initialize inputs1 (Some 2%Z) (Some 3%Z)
  = compute_coords Standin.cosspace3 Standin.poly_cst Binary64.round_scalar
      initialize inputs2 (Some 2%Z) (Some 3%Z).
Proof.
  intros inputs1 inputs2.
  exact (compute_coords_reads_first_t_te Standin.cosspace3 Standin.poly_cst
           Binary64.round_scalar initialize inputs1 inputs2 (Some 2%Z) (Some 3%Z)
           0.125%float [] [7%float] eq_refl eq_refl eq_refl eq_refl).
Defined.

(** C6.  [cst2coords] has no state of its own: two calls with the same
    coefficient vectors, trailing-edge thickness and sample count, in
    which the grid generator and the evaluator answer alike, return the
    same result, element for element. *)
Theorem cst2coords_deterministic {F : Type} `{Scalar F}
    (cosspace cosspace' : F -> F -> Z -> result (list F))
    (cst cst' : list F -> list F -> option (F * F) -> option F -> result (list F))
    (a_ca a_ca' a_th a_th' : list F) (t_te t_te' : F) (n n' : Z) :
  (forall lo hi m, cosspace lo hi m = cosspace' lo hi m) ->
  (forall x a delta n1, cst x a delta n1 = cst' x a delta n1) ->
  a_ca = a_ca' -> a_th = a_th' -> t_te = t_te' -> n = n' ->
  cst2coords cosspace cst a_ca a_th t_te n
  = cst2coords cosspace' cst' a_ca' a_th' t_te' n'.
Proof.
  intros Hgrid Hcst <- <- <- <-. unfold cst2coords.
  rewrite Hgrid. destruct (cosspace' _ _ n) as [x|e]; simpl; [|reflexivity].
  rewrite !Hcst. reflexivity.
Qed.

(** Two calls on the same binary64 input. *)
Lemma cst2coords_deterministic_witness :
  cst2coords Standin.cosspace3 Standin.poly_cst
    [0.08%float] [0.3%float] 0.002%float 3
  = cst2coords Standin.cosspace3 Standin.poly_cst
      [0.08%float] [0.3%float] 0.002%float 3.
Proof.
  exact (cst2coords_deterministic Standin.cosspace3 Standin.cosspace3
           Standin.poly_cst Standin.poly_cst
           [0.08%float] [0.08%float] [0.3%float] [0.3%float]
           0.002%float 0.002%float 3 3
           (fun _ _ _ => eq_refl) (fun _ _ _ _ => eq_refl)
           eq_refl eq_refl eq_refl eq_refl).
Defined.

(** ** The round trip in exact arithmetic *)

Section RoundTrip.
Variable cosspace : R -> R -> Z -> result (list R).
Variable cst : list R -> list R -> option (R * R) -> option R -> result (list R).
Variable fit :
  list R -> list R -> Z -> option (R * R) -> option R -> result (list R * (R * R)).

(** Over the reals the surfaces rebuilt by [cst2coords] split back into
    the camber and the thickness they were built from. *)
Lemma surfaces_split_back (y_c t : list R) :
  length y_c = length t ->
  let h := arr_div_scalar t (ofZ 2) in
  camber (zip_with add y_c h) (zip_with sub y_c h) = y_c /\
  thickness (zip_with add y_c h) (zip_with sub y_c h) = t.
Proof.
  intros E h. unfold camber, thickness, h, arr_div_scalar. clear h.
  revert t E. induction y_c as [|c y_c IH]; intros [|th t] E; try discriminate.
  - split; reflexivity.
  - injection E as E. destruct (IH t E) as [IHc IHt]. cbn [zip_with fmap list_fmap].
    simpl in *. rewrite IHc, IHt. split; f_equal; lra.
Qed.

(** If the fit returns the coefficients of the curves it is given, the
    round trip through [cst2coords] and [coords2cst] returns the original
    coefficients and trailing-edge thickness. *)
Lemma roundtrip_exact_arith (a_ca a_th : list R) (t_te : R) (n : Z)
    (x y_u y_l y_c t : list R) (bc : R * R) (d0 : R) (n_ca n_th : Z) :
  cst2coords cosspace cst a_ca a_th t_te n = Ok (x, y_u, y_l, y_c, t) ->
  length y_c = length x -> length t = length x ->
  fit x y_c n_ca (Some (ofZ 0, ofZ 0)) (Some (ofZ 1)) = Ok (a_ca, bc) ->
  fit x t n_th None None = Ok (a_th, (d0, t_te)) ->
  coords2cst fit x y_u y_l n_ca n_th = Ok (a_ca, a_th, t_te).
Proof.
  intros (_ & _ & _ & Hu & Hl)%cst2coords_Ok Lc Lt Fc Ft.
  assert (length y_c = length (arr_div_scalar t (ofZ 2))) as E
    by (rewrite arr_div_scalar_length; congruence).
  unfold arr_add, arr_sub in Hu, Hl.
  rewrite broadcast_same_length in Hu, Hl by exact E.
  injection Hu as <-. injection Hl as <-.
  destruct (surfaces_split_back y_c t) as [Hc Ht]; [congruence|].
  rewrite coords2cst_on_grid by (rewrite !length_zip_with; reflexivity).
  unfold coords2cst_spec. simpl in Hc, Ht. rewrite Hc, Ht, Fc, Ft. reflexivity.
Qed.
End RoundTrip.

(** * Further properties of the module *)

(** ** Reading the inputs *)

Section Inputs.
Context {F : Type} `{Scalar F}.
Variable cosspace : F -> F -> Z -> result (list F).
Variable cst : list F -> list F -> option (F * F) -> option F -> result (list F).
Variable round_scalar : Z -> F -> F.

(** Each declared input of a conforming vector is present, at its shape. *)
Lemma conforms_lookup (declared : list (string * Z))
    (inputs : gmap string (list F)) (name : string) (shape : Z) :
  conforms declared inputs = true ->
  (name, shape) ∈ declared ->
  exists v, inputs !! name = Some v /\ Z.of_nat (length v) = shape.
Proof.
  unfold conforms. rewrite forallb_forall. intros Hall Hin.
  apply list_elem_of_In in Hin. specialize (Hall _ Hin). simpl in Hall.
  destruct (inputs !! name) as [v|]; [|discriminate].
  exists v. split; [reflexivity | lia].
Qed.
End Inputs.

(** A missing input stops [compute_coords] with the key error of the
    first missing name, in the order [a_ca], [a_th], [t_te], and an empty
    [t_te] with an index error, whatever the collaborators, the precision
    and the sample count are. *)
Theorem compute_coords_input_errors {F : Type} `{Scalar F}
    (cosspace : F -> F -> Z -> result (list F))
    (cst : list F -> list F -> option (F * F) -> option F -> result (list F))
    (round_scalar : Z -> F -> F)
    (self : AirfoilComponent) (inputs : gmap string (list F))
    (precision n_arg : option Z) :
  let run := compute_coords cosspace cst round_scalar self inputs precision n_arg in
  (inputs !! "a_ca" = None -> run = Err (KeyError "a_ca")) /\
  (is_Some (inputs !! "a_ca") -> inputs !! "a_th" = None ->
   run = Err (KeyError "a_th")) /\
  (is_Some (inputs !! "a_ca") -> is_Some (inputs !! "a_th") ->
   inputs !! "t_te" = None -> run = Err (KeyError "t_te")) /\
  (is_Some (inputs !! "a_ca") -> is_Some (inputs !! "a_th") ->
   inputs !! "t_te" = Some [] -> run = Err IndexError).
Proof.
  intros run. unfold run, compute_coords, get_input.
  repeat split.
  - intros ->. reflexivity.
  - intros [a ->] ->. reflexivity.
  - intros [a ->] [b ->] ->. reflexivity.
  - intros [a ->] [b ->] ->. reflexivity.
Qed.

(** A vector without thickness coefficients, and one whose [t_te] is
    empty. *)
Lemma compute_coords_input_errors_witness :
  let no_a_th : gmap string (list float) :=
    <["a_ca" := [0.25%float]]> (<["t_te" := [0.125%float]]> ∅) in
  let empty_t_te : gmap string (list float) :=
    <["a_ca" := [0.25%float]]> (<["a_th" := [0.5%float]]> (<["t_te" := []]> ∅)) in
  compute_coords Standin.cosspace3 Standin.poly_cst Binary64.round_scalar
    initialize no_a_th None (Some 3%Z) = Err (KeyError "a_th") /\
  compute_coords Standin.cosspace3 Standin.poly_cst Binary64.round_scalar
    initialize empty_t_te None (Some 3%Z) = Err IndexError.
Proof.
  intros no_a_th empty_t_te. split.
  - refine (proj1 (proj2 (compute_coords_input_errors Standin.cosspace3
              Standin.poly_cst Binary64.round_scalar initialize no_a_th
              None (Some 3%Z))) _ eq_refl).
    exists [0.25%float]. reflexivity.
  - refine (proj2 (proj2 (proj2 (compute_coords_input_errors Standin.cosspace3
              Standin.poly_cst Binary64.round_scalar initialize empty_t_te
              None (Some 3%Z)))) _ _ eq_refl).
    + exists [0.25%float]. reflexivity.
    + exists [0.5%float]. reflexivity.
Defined.

(** On an input vector that holds what [setup] declared, [compute_coords]
    raises neither a key nor an index error of its own: it is [cst2coords]
    on [n_ca] camber coefficients, [n_th] thickness coefficients and the
    single element of [t_te], followed by the optional rounding. *)
Theorem compute_coords_on_declared_inputs {F : Type} `{Scalar F}
    (cosspace : F -> F -> Z -> result (list F))
    (cst : list F -> list F -> option (F * F) -> option F -> result (list F))
    (round_scalar : Z -> F -> F)
    (self : AirfoilComponent) (inputs : gmap string (list F))
    (precision n_arg : option Z) :
  conforms (setup self) inputs = true ->
  exists (a_ca a_th : list F) (t_te : F),
    inputs !! "a_ca" = Some a_ca /\ Z.of_nat (length a_ca) = n_ca self /\
    inputs !! "a_th" = Some a_th /\ Z.of_nat (length a_th) = n_th self /\
    inputs !! "t_te" = Some [t_te] /\
    compute_coords cosspace cst round_scalar self inputs precision n_arg
    = out ← cst2coords cosspace cst a_ca a_th t_te (default (n_coords self) n_arg);
      Ok (round_output round_scalar precision out).
Proof.
  intros Hc.
  destruct (conforms_lookup _ _ "a_ca" (n_ca self) Hc) as (a_ca & Ea & La);
    [unfold setup; set_solver|].
  destruct (conforms_lookup _ _ "a_th" (n_th self) Hc) as (a_th & Eh & Lh);
    [unfold setup; set_solver|].
  destruct (conforms_lookup _ _ "t_te" 1%Z Hc) as (t & Et & Lt);
    [unfold setup; set_solver|].
  destruct t as [|t_te [|t' t]]; simpl in Lt; try lia.
  exists a_ca, a_th, t_te. repeat (split; [assumption|]).
  eapply compute_coords_unfold; eassumption.
Qed.

(** A freshly initialized component with six and six coefficients. *)
Lemma compute_coords_on_declared_inputs_witness :
  let six := [0.1%float; 0.2%float; 0.3%float; 0.2%float; 0.1%float; 0%float] in
  let inputs : gmap string (list float) :=
    <["a_ca" := six]> (<["a_th" := six]> (<["t_te" := [0.002%float]]> ∅)) in
  conforms (setup initialize) inputs = true /\
  compute_coords Standin.cosspace3 Standin.poly_cst Binary64.round_scalar
    initialize inputs (Some 3%Z) (Some 3%Z)
  = out ← cst2coords Standin.cosspace3 Standin.poly_cst six six 0.002%float 3;
    Ok (round_output Binary64.round_scalar (Some 3%Z) out).
Proof.
  intros six inputs.
  assert (conforms (setup initialize) inputs = true) as Hc by (vm_compute; reflexivity).
  split; [exact Hc|].
  destruct (compute_coords_on_declared_inputs Standin.cosspace3 Standin.poly_cst
              Binary64.round_scalar initialize inputs (Some 3%Z) (Some 3%Z) Hc)
    as (a_ca & a_th & t_te & Ea & _ & Eh & _ & Et & Hrun).
  rewrite Hrun. vm_compute in Ea, Eh, Et.
  injection Ea as <-. injection Eh as <-. injection Et as <-.
  reflexivity.
Defined.

(** ** Shapes on the evaluate path *)

Section Shapes.
Context {F : Type} `{Scalar F}.

(** Whether two arrays combine under numpy's broadcasting decides the
    outcome of an array operation, whatever the operation. *)
Lemma broadcast_outcome (op : F -> F -> F) (a b : list F) :
  (length a = length b \/ length a = 1%nat \/ length b = 1%nat ->
   exists r, broadcast op a b = Ok r /\
             length r = if decide (length a = 1%nat) then length b else length a) /\
  (~ (length a = length b \/ length a = 1%nat \/ length b = 1%nat) ->
   broadcast op a b = Err ShapeMismatch).
Proof.
  split.
  - intros Hc. unfold broadcast. destruct (decide (length a = length b)) as [E|NE].
    + eexists. split; [reflexivity|]. rewrite length_zip_with.
      destruct (decide _); lia.
    + destruct a as [|u [|u' a]], b as [|v [|v' b]]; simpl in *;
        try (exfalso; lia);
        (eexists; split; [reflexivity|]; simpl; rewrite ?length_fmap; reflexivity).
  - intros Hn. apply broadcast_mismatch; tauto.
Qed.
End Shapes.

(** Once the grid and the two evaluations are there, [cst2coords] returns
    exactly when the camber and thickness arrays combine under
    broadcasting (equal lengths, or one of length one), with upper and
    lower surfaces of one common length; otherwise it fails with a shape
    mismatch. *)
Theorem cst2coords_shapes {F : Type} `{Scalar F}
    (cosspace : F -> F -> Z -> result (list F))
    (cst : list F -> list F -> option (F * F) -> option F -> result (list F))
    (a_ca a_th : list F) (t_te : F) (n : Z) (x y_c t : list F) :
  cosspace (ofZ 0) (ofZ 1) n = Ok x ->
  cst x a_ca None (Some (ofZ 1)) = Ok y_c ->
  cst x a_th (Some (ofZ 0, t_te)) None = Ok t ->
  (length y_c = length t \/ length y_c = 1%nat \/ length t = 1%nat ->
   exists y_u y_l,
     cst2coords cosspace cst a_ca a_th t_te n = Ok (x, y_u, y_l, y_c, t) /\
     length y_u = length y_l /\
     (length y_c = length t -> length y_u = length t)) /\
  (~ (length y_c = length t \/ length y_c = 1%nat \/ length t = 1%nat) ->
   cst2coords cosspace cst a_ca a_th t_te n = Err ShapeMismatch).
Proof.
  intros Hx Hc Ht. unfold cst2coords. rewrite Hx. simpl. rewrite Hc. simpl.
  rewrite Ht. simpl. unfold arr_add, arr_sub.
  pose proof (arr_div_scalar_length t (ofZ 2)) as Lh.
  split.
  - intros Hcompat. rewrite <- Lh in Hcompat.
    destruct (proj1 (broadcast_outcome add y_c (arr_div_scalar t (ofZ 2))) Hcompat)
      as (y_u & -> & Lu).
    destruct (proj1 (broadcast_outcome sub y_c (arr_div_scalar t (ofZ 2))) Hcompat)
      as (y_l & -> & Ll).
    exists y_u, y_l. split; [reflexivity|]. split; [congruence|].
    intros E. rewrite Lu. destruct (decide _); lia.
  - intros Hn. rewrite <- Lh in Hn.
    rewrite (proj2 (broadcast_outcome add y_c (arr_div_scalar t (ofZ 2))) Hn).
    reflexivity.
Qed.

(** An evaluator that answers with its coefficient vector: two camber
    values against three thickness values do not combine. *)
Lemma cst2coords_shapes_witness :
  let echo := fun (x a : list float) (_ : option (float * float))
                  (_ : option float) => Ok a in
  cst2coords Standin.cosspace3 echo
    [0.1%float; 0.2%float] [0.3%float; 0.2%float; 0.1%float] 0%float 3
  = Err ShapeMismatch /\
  exists y_u y_l,
    cst2coords Standin.cosspace3 Standin.poly_cst
      [0.08%float] [0.3%float] 0.002%float 3
    = Ok ([0%float; 0.5%float; 1%float], y_u, y_l,
          [0%float; 0.02%float; 0%float],
          [0%float; 0.076%float; 0.002%float]) /\
    length y_u = length y_l.
Proof.
  intros echo.
  assert (Standin.cosspace3 (F:=float) (ofZ 0) (ofZ 1) 3
          = Ok [0%float; 0.5%float; 1%float]) as Hx by (vm_compute; reflexivity).
  split.
  - refine (proj2 (cst2coords_shapes Standin.cosspace3 echo
              [0.1%float; 0.2%float] [0.3%float; 0.2%float; 0.1%float] 0%float 3
              _ _ _ Hx eq_refl eq_refl) _).
    simpl. lia.
  - assert (Standin.poly_cst (F:=float) [0%float; 0.5%float; 1%float]
              [0.08%float] None (Some (ofZ 1))
            = Ok [0%float; 0.02%float; 0%float]) as Hc by (vm_compute; reflexivity).
    assert (Standin.poly_cst (F:=float) [0%float; 0.5%float; 1%float]
              [0.3%float] (Some (ofZ 0, 0.002%float)) None
            = Ok [0%float; 0.076%float; 0.002%float]) as Ht by (vm_compute; reflexivity).
    destruct (proj1 (cst2coords_shapes Standin.cosspace3 Standin.poly_cst
                [0.08%float] [0.3%float] 0.002%float 3 _ _ _ Hx Hc Ht)
                (or_introl eq_refl))
      as (y_u & y_l & Hrun & Hlen & _).
    exists y_u, y_l. split; assumption.
Defined.

(** The grid that [cst2coords] returns depends on the sample count only:
    two successful calls with the same count return the same grid,
    whatever the coefficients and the trailing-edge thickness are. *)
Theorem cst2coords_grid_shared {F : Type} `{Scalar F}
    (cosspace : F -> F -> Z -> result (list F))
    (cst : list F -> list F -> option (F * F) -> option F -> result (list F))
    (a_ca a_ca' a_th a_th' : list F) (t_te t_te' : F) (n : Z)
    (x y_u y_l y_c t x' y_u' y_l' y_c' t' : list F) :
  cst2coords cosspace cst a_ca a_th t_te n = Ok (x, y_u, y_l, y_c, t) ->
  cst2coords cosspace cst a_ca' a_th' t_te' n = Ok (x', y_u', y_l', y_c', t') ->
  x = x'.
Proof.
  intros (Hx & _)%cst2coords_Ok (Hx' & _)%cst2coords_Ok. congruence.
Qed.

(** Two airfoils on three points. *)
Lemma cst2coords_grid_shared_witness :
  exists x y_u y_l y_c t x' y_u' y_l' y_c' t',
    cst2coords Standin.cosspace3 Standin.poly_cst
      [0.08%float] [0.3%float] 0.002%float 3 = Ok (x, y_u, y_l, y_c, t) /\
    cst2coords Standin.cosspace3 Standin.poly_cst
      [0%float; 0.1%float] [0.2%float] 0%float 3 = Ok (x', y_u', y_l', y_c', t') /\
    x = x'.
Proof.
  do 10 eexists.
  split; [vm_compute; reflexivity|]. split; [vm_compute; reflexivity|].
  eapply (cst2coords_grid_shared Standin.cosspace3 Standin.poly_cst
            [0.08%float] [0%float; 0.1%float] [0.3%float] [0.2%float]
            0.002%float 0%float 3); vm_compute; reflexivity.
Defined.

(** Without an explicit sample count [compute_coords] returns sequences
    of the configured length, rounded or not, provided the grid generator
    returns the requested number of points and the evaluator answers on
    the grid. *)
Theorem coords_have_configured_length {F : Type} `{Scalar F}
    (cosspace : F -> F -> Z -> result (list F))
    (cst : list F -> list F -> option (F * F) -> option F -> result (list F))
    (round_scalar : Z -> F -> F)
    (self : AirfoilComponent) (inputs : gmap string (list F))
    (precision : option Z) (a_ca a_th rest : list F) (t_te : F) :
  (2 <= n_coords self)%Z ->
  (forall lo hi m, (2 <= m)%Z ->
     exists x, cosspace lo hi m = Ok x /\ length x = Z.to_nat m) ->
  (forall x a delta n1, exists y, cst x a delta n1 = Ok y /\ length y = length x) ->
  inputs !! "a_ca" = Some a_ca ->
  inputs !! "a_th" = Some a_th ->
  inputs !! "t_te" = Some (t_te :: rest) ->
  exists out,
    compute_coords cosspace cst round_scalar self inputs precision None = Ok out /\
    lengths_are (Z.to_nat (n_coords self)) out.
Proof.
  intros Hn Hgrid Hcst Ea Eh Et.
  destruct (cst2coords_lengths cosspace cst a_ca a_th t_te (n_coords self)
              (Hgrid _ _ _ Hn) Hcst) as (out & Hout & Hlen).
  exists (round_output round_scalar precision out). split.
  - rewrite (compute_coords_unfold _ _ _ _ _ _ _ _ _ _ _ Ea Eh Et). simpl.
    rewrite Hout. reflexivity.
  - apply lengths_are_round, Hlen.
Qed.

(** A freshly initialized component returns a hundred samples. *)
Lemma coords_have_configured_length_witness :
  let inputs : gmap string (list R) :=
    <["a_ca" := [1%R]]> (<["a_th" := [1%R]]> (<["t_te" := [0%R]]> ∅)) in
  (2 <= n_coords initialize)%Z /\
  exists out,
    compute_coords Util.cosspace Standin.poly_cst Exact.round_scalar
      initialize inputs (Some 4%Z) None = Ok out /\
    lengths_are 100 out.
Proof.
  intros inputs.
  assert (2 <= n_coords initialize)%Z as Hn by (simpl; lia).
  split; [exact Hn|].
  refine (coords_have_configured_length Util.cosspace Standin.poly_cst
            Exact.round_scalar initialize inputs (Some 4%Z) [1%R] [1%R] [] 0%R
            Hn _ _ eq_refl eq_refl eq_refl).
  - intros lo hi m Hm. eexists. split; [apply cosspace_Ok, Hm | apply grid_length].
  - intros x a delta n1. eexists. split; [reflexivity | apply length_fmap].
Defined.

(** ** Coefficient counts on the fit path *)

(** [coords2cst] hands [n_ca] to the camber fit and [n_th] to the
    thickness fit: with a fit that returns as many coefficients as it is
    asked for, the camber vector has [n_ca] and the thickness vector
    [n_th] elements. *)
Theorem coords2cst_coefficient_counts {F : Type} `{Scalar F}
    (fit : list F -> list F -> Z -> option (F * F) -> option F
           -> result (list F * (F * F)))
    (x y_u y_l : list F) (n_ca n_th : Z) (a_ca a_th : list F) (t_te : F) :
  (forall x y n delta n1 a b,
      fit x y n delta n1 = Ok (a, b) -> length a = Z.to_nat n) ->
  coords2cst fit x y_u y_l n_ca n_th = Ok (a_ca, a_th, t_te) ->
  length a_ca = Z.to_nat n_ca /\ length a_th = Z.to_nat n_th.
Proof.
  intros Hfit Hrun. unfold coords2cst in Hrun.
  apply bind_Ok in Hrun as (s & _ & Hrun).
  apply bind_Ok in Hrun as (t & _ & Hrun).
  apply bind_Ok in Hrun as ([a bc] & Fc & Hrun).
  apply bind_Ok in Hrun as ([b bt] & Ft & Hrun).
  injection Hrun as <- <- _.
  split; [exact (Hfit _ _ _ _ _ _ _ Fc) | exact (Hfit _ _ _ _ _ _ _ Ft)].
Qed.

(** Two camber and four thickness coefficients asked of the end-point
    fit. *)
Lemma coords2cst_coefficient_counts_witness :
  let x := [0%float; 0.5%float; 1%float] in
  let y_u := [0%float; 0.07%float; 0.1%float] in
  let y_l := [0%float; (-0.03)%float; (-0.1)%float] in
  exists a_ca a_th t_te,
    coords2cst Standin.endpoint_fit x y_u y_l 2 4 = Ok (a_ca, a_th, t_te) /\
    length a_ca = 2%nat /\ length a_th = 4%nat.
Proof.
  intros x y_u y_l. do 3 eexists.
  split; [vm_compute; reflexivity|].
  refine (coords2cst_coefficient_counts Standin.endpoint_fit x y_u y_l 2 4
            _ _ _ _ ltac:(vm_compute; reflexivity)).
  intros x' y n delta n1 a b. unfold Standin.endpoint_fit.
  destruct (decide _); [|discriminate].
  intros [= <- _]. apply length_replicate.
Defined.

(** ** Exact arithmetic: surfaces, camber and thickness *)

(** Equality of two lists of real expressions, element by element. *)
Ltac reals_list :=
  lazymatch goal with
  | |- Ok _ = Ok _ => apply (f_equal Ok); reals_list
  | |- _ :: _ = _ :: _ => apply (f_equal2 cons); [simpl; lra | reals_list]
  | |- [] = [] => reflexivity
  end.

Section ExactSurfaces.
Variable cosspace : R -> R -> Z -> result (list R).
Variable cst : list R -> list R -> option (R * R) -> option R -> result (list R).

(** Over the reals the camber and thickness that [coords2cst] computes
    from two surfaces rebuild these surfaces by the arithmetic of
    [cst2coords]. *)
Lemma surfaces_rebuilt (y_u y_l : list R) :
  length y_u = length y_l ->
  let h := arr_div_scalar (thickness y_u y_l) (ofZ 2) in
  zip_with add (camber y_u y_l) h = y_u /\
  zip_with sub (camber y_u y_l) h = y_l.
Proof.
  intros E h. unfold h, camber, thickness, arr_div_scalar. clear h.
  revert y_l E. induction y_u as [|u y_u IH]; intros [|l y_l] E; try discriminate.
  - split; reflexivity.
  - injection E as E. destruct (IH y_l E) as [IHu IHl].
    cbn [zip_with fmap list_fmap]. simpl in *. rewrite IHu, IHl.
    split; f_equal; lra.
Qed.
End ExactSurfaces.

(** Coordinates to CST and back, over the reals: if the evaluator, at the
    coefficients at hand, reproduces the camber [(y_u + y_l) / 2] and the
    thickness [y_u - y_l] of two surfaces on the grid, [cst2coords]
    returns exactly these two surfaces. *)
Theorem cst2coords_rebuilds_surfaces
    (cosspace : R -> R -> Z -> result (list R))
    (cst : list R -> list R -> option (R * R) -> option R -> result (list R))
    (a_ca a_th : list R) (t_te : R) (n : Z) (x y_u y_l : list R) :
  length y_u = length y_l ->
  cosspace 0%R 1%R n = Ok x ->
  cst x a_ca None (Some 1%R) = Ok (camber y_u y_l) ->
  cst x a_th (Some (0%R, t_te)) None = Ok (thickness y_u y_l) ->
  cst2coords cosspace cst a_ca a_th t_te n
  = Ok (x, y_u, y_l, camber y_u y_l, thickness y_u y_l).
Proof.
  intros E Hx Hc Ht. apply cst2coords_Ok.
  repeat (split; [assumption|]).
  destruct (surfaces_rebuilt y_u y_l E) as [Hu Hl].
  assert (length (camber y_u y_l)
          = length (arr_div_scalar (thickness y_u y_l) (ofZ 2))) as L.
  { unfold camber, thickness. rewrite arr_div_scalar_length, !length_zip_with.
    reflexivity. }
  unfold arr_add, arr_sub. rewrite !broadcast_same_length by exact L.
  simpl in Hu, Hl. split; f_equal; assumption.
Qed.

(** A flat camber line under a wedge of thickness one at the trailing
    edge. *)
Lemma cst2coords_rebuilds_surfaces_witness :
  let y_u : list R := [0; 1 / 4; 1 / 2]%R in
  let y_l : list R := [0; - (1 / 4); - (1 / 2)]%R in
  length y_u = length y_l /\
  exists x,
    cst2coords Standin.cosspace3 Standin.poly_cst [0%R] [0%R] 1%R 3
    = Ok (x, y_u, y_l, camber y_u y_l, thickness y_u y_l).
Proof.
  intros y_u y_l. split; [reflexivity|]. eexists.
  apply (cst2coords_rebuilds_surfaces Standin.cosspace3 Standin.poly_cst
           [0%R] [0%R] 1%R 3 _ y_u y_l eq_refl eq_refl).
  - unfold Standin.poly_cst, camber. simpl. reals_list.
  - unfold Standin.poly_cst, thickness. simpl. reals_list.
Defined.

(** Over the reals, at every grid point of a [cst2coords] output: the
    lower surface is the mirror image of the upper one where the camber
    vanishes, the upper surface lies above the lower one exactly where the
    thickness is non-negative, and the camber line then lies between
    them. *)
Theorem cst2coords_geometry
    (cosspace : R -> R -> Z -> result (list R))
    (cst : list R -> list R -> option (R * R) -> option R -> result (list R))
    (a_ca a_th : list R) (t_te : R) (n : Z) (x y_u y_l y_c t : list R)
    (i : nat) (u l c th : R) :
  cst2coords cosspace cst a_ca a_th t_te n = Ok (x, y_u, y_l, y_c, t) ->
  y_u !! i = Some u -> y_l !! i = Some l ->
  y_c !! i = Some c -> t !! i = Some th ->
  (c = 0 -> l = - u)%R /\
  (l <= u <-> 0 <= th)%R /\
  (0 <= th -> l <= c <= u)%R.
Proof.
  intros Hrun Iu Il Ic It.
  destruct (cst2coords_surfaces _ _ _ _ _ _ _ _ _ _ _ _ _ _ _ _ Hrun Iu Il Ic It)
    as [-> ->].
  simpl. repeat split; lra.
Qed.

(** Mid-chord of a symmetric wedge. *)
Lemma cst2coords_geometry_witness :
  exists x y_u y_l y_c t u l c th,
    cst2coords Standin.cosspace3 Standin.poly_cst [0%R] [0%R] 1%R 3
    = Ok (x, y_u, y_l, y_c, t) /\
    y_u !! 1%nat = Some u /\ y_l !! 1%nat = Some l /\
    y_c !! 1%nat = Some c /\ t !! 1%nat = Some th /\
    (c = 0 -> l = - u)%R /\ (l <= u <-> 0 <= th)%R /\ (0 <= th -> l <= c <= u)%R.
Proof.
  do 9 eexists.
  split; [reflexivity|].
  do 4 (split; [reflexivity|]).
  eapply (cst2coords_geometry Standin.cosspace3 Standin.poly_cst
            [0%R] [0%R] 1%R 3%Z _ _ _ _ _ 1%nat); reflexivity.
Defined.

(** Over the reals a symmetric airfoil, whose lower surface is the mirror
    image of the upper one, sends the zero camber line to the camber fit
    and twice the upper surface to the thickness fit. *)
Theorem coords2cst_symmetric
    (fit : list R -> list R -> Z -> option (R * R) -> option R
           -> result (list R * (R * R)))
    (x y_u : list R) (n_ca n_th : Z) :
  coords2cst fit x y_u (Ropp <$> y_u) n_ca n_th
  = '(a_ca, _) ← fit x (replicate (length y_u) 0%R) n_ca (Some (0%R, 0%R)) (Some 1%R);
    '(a_th, boundary) ← fit x ((fun u => 2 * u)%R <$> y_u) n_th None None;
    Ok (a_ca, a_th, snd boundary).
Proof.
  rewrite coords2cst_on_grid by (rewrite length_fmap; reflexivity).
  unfold coords2cst_spec.
  assert (camber y_u (Ropp <$> y_u) = replicate (length y_u) 0%R) as ->.
  { unfold camber. induction y_u as [|u y_u IH]; simpl; [reflexivity|].
    f_equal; [lra | exact IH]. }
  assert (thickness y_u (Ropp <$> y_u) = (fun u => 2 * u)%R <$> y_u) as ->.
  { unfold thickness. induction y_u as [|u y_u IH]; simpl; [reflexivity|].
    f_equal; [lra | exact IH]. }
  simpl. destruct (fit x _ n_ca _ _) as [[a_ca bc]|e]; simpl; [|reflexivity].
  destruct (fit x _ n_th _ _) as [[a_th bt]|e]; reflexivity.
Qed.

(** CST to coordinates and back on a wedge, with the end-point fit. *)
Lemma roundtrip_exact_arith_witness :
  exists x y_u y_l y_c t,
    cst2coords Standin.cosspace3 Standin.poly_cst [0%R] [0%R] 1%R 3
    = Ok (x, y_u, y_l, y_c, t) /\
    length y_c = length x /\ length t = length x /\
    coords2cst Standin.endpoint_fit x y_u y_l 1 1 = Ok ([0%R], [0%R], 1%R).
Proof.
  do 5 eexists.
  split; [reflexivity|]. split; [reflexivity|]. split; [reflexivity|].
  eapply (roundtrip_exact_arith Standin.cosspace3 Standin.poly_cst
            Standin.endpoint_fit [0%R] [0%R] 1%R 3%Z).
  - reflexivity.
  - reflexivity.
  - reflexivity.
  - reflexivity.
  - unfold Standin.endpoint_fit. simpl. do 2 f_equal.
    apply (f_equal2 pair); [reflexivity | lra].
Defined.
